(** * The Sphinx configuration module [doc/source/conf.py] of Cosmic

    [conf.py] is a Python module that Sphinx executes once and then reads as
    a namespace of settings.  The development below embeds the fragment of
    Python the file is written in (string, boolean, list and dict displays,
    [import] and assignment statements), transcribes the file statement by
    statement, gives module loading as a fallible fold over a namespace, and
    proves what the documentation says about the resulting attributes. *)

From stdpp Require Import gmap strings list fin_maps.

Set Warnings "-register-all".
Open Scope string_scope.

(** ** Syntax *)

(** A string literal is written either bare (['trac']) or with the [u]
    prefix ([u'Cosmic']). *)
Inductive str_prefix : Type :=
  | Plain
  | Uni.

Inductive expr : Type :=
  | EStr (p : str_prefix) (s : string)
  | EBool (b : bool)
  | ENone
  | EName (x : string)
  | EList (es : list expr)
  | EDict (kvs : list (expr * expr)).

Inductive stmt : Type :=
  | SImport (mods : list string)
  | SAssign (target : string) (rhs : expr)
  | SExpr (e : expr).

(** A module is the sequence of its statements, each with the number of the
    line it starts on.  Comments and blank lines are not statements. *)
Definition module_src : Type := list (nat * stmt).

(** ** Values *)

(** A dict is kept as its items in insertion order, with pairwise distinct
    keys. *)
Inductive value : Type :=
  | VStr (p : str_prefix) (s : string)
  | VBool (b : bool)
  | VNone
  | VList (vs : list value)
  | VDict (kvs : list (value * value))
  | VModule (name : string).

Definition is_str (v : value) : bool :=
  match v with VStr _ _ => true | _ => false end.

Definition is_str_list (v : value) : bool :=
  match v with VList vs => forallb is_str vs | _ => false end.

(** Lists and dicts are unhashable and cannot be dict keys. *)
Definition hashable (v : value) : bool :=
  match v with
  | VList _ | VDict _ => false
  | _ => true
  end.

(** Python's [==] on hashable values.  A [u]-prefixed and a bare string
    with the same text are equal. *)
Definition key_eqb (a b : value) : bool :=
  match a, b with
  | VStr _ s, VStr _ t => String.eqb s t
  | VBool x, VBool y => Bool.eqb x y
  | VNone, VNone => true
  | VModule m, VModule n => String.eqb m n
  | _, _ => false
  end.

(** [d[k]] *)
Fixpoint dict_get (kvs : list (value * value)) (k : value) : option value :=
  match kvs with
  | [] => None
  | (k', v) :: rest => if key_eqb k' k then Some v else dict_get rest k
  end.

(** [d[k] = v]: an existing key keeps its place and gets the new value, a
    new key goes last. *)
Fixpoint dict_set (kvs : list (value * value)) (k v : value)
  : list (value * value) :=
  match kvs with
  | [] => [(k, v)]
  | (k', v') :: rest =>
      if key_eqb k' k then (k', v) :: rest else (k', v') :: dict_set rest k v
  end.

(** ** Evaluation and module loading *)

(** Items of a list display and entries of a dict display are evaluated
    left to right; a dict display stores each entry as [d[k] = v] does. *)
Section displays.
Variable ev : expr -> option value.

Fixpoint eval_items (es : list expr) : option (list value) :=
  match es with
  | [] => Some []
  | e :: es' => v ← ev e; vs ← eval_items es'; Some (v :: vs)
  end.

Fixpoint eval_entries (kvs : list (expr * expr)) (acc : list (value * value))
  : option (list (value * value)) :=
  match kvs with
  | [] => Some acc
  | (ke, ve) :: kvs' =>
      k ← ev ke;
      v ← ev ve;
      if hashable k then eval_entries kvs' (dict_set acc k v) else None
  end.
End displays.

(** Evaluation fails ([None]) on an unbound name and on an unhashable dict
    key. *)
Fixpoint eval (ns : gmap string value) (e : expr) : option value :=
  match e with
  | EStr p s => Some (VStr p s)
  | EBool b => Some (VBool b)
  | ENone => Some VNone
  | EName x => ns !! x
  | EList es => vs ← eval_items (eval ns) es; Some (VList vs)
  | EDict kvs => d ← eval_entries (eval ns) kvs []; Some (VDict d)
  end.

(** [import m] binds the name [m] to the module object. *)
Definition bind_module (ns : gmap string value) (m : string)
  : gmap string value :=
  <[m := VModule m]> ns.

Definition exec_stmt (ns : gmap string value) (s : stmt)
  : option (gmap string value) :=
  match s with
  | SImport mods => Some (foldl bind_module ns mods)
  | SAssign x e => v ← eval ns e; Some (<[x := v]> ns)
  | SExpr e => _ ← eval ns e; Some ns
  end.

Fixpoint exec_module (ns : gmap string value) (p : module_src)
  : option (gmap string value) :=
  match p with
  | [] => Some ns
  | (_, s) :: rest => ns' ← exec_stmt ns s; exec_module ns' rest
  end.

(** ** The file *)

Definition sidebar_templates : expr :=
  EList [EStr Plain "globaltoc.html"; EStr Plain "relations.html";
         EStr Plain "sidebarintro.html"; EStr Plain "searchbox.html"].

Definition conf_py : module_src :=
  [ (3,  SImport ["sys"; "os"]);
    (5,  SAssign "needs_sphinx" (EStr Plain "1.1.2"));
    (7,  SAssign "extensions" (EList []));
    (9,  SAssign "templates_path" (EList [EStr Plain "_templates"]));
    (11, SAssign "source_suffix" (EStr Plain ".rst"));
    (13, SAssign "source_encoding" (EStr Plain "utf-8-sig"));
    (15, SAssign "master_doc" (EStr Plain "index"));
    (17, SAssign "project" (EStr Uni "Cosmic"));
    (18, SAssign "copyright" (EStr Uni "2012, Ning"));
    (20, SAssign "version" (EStr Plain "0.0.1-SNAPSHOT"));
    (21, SAssign "release" (EStr Plain "0.0.1-SNAPSHOT"));
    (23, SAssign "exclude_trees" (EList [EStr Plain ".build"]));
    (25, SAssign "add_function_parentheses" (EBool true));
    (27, SAssign "pygments_style" (EStr Plain "trac"));
    (29, SAssign "master_doc" (EStr Plain "index"));
    (33, SAssign "html_theme" (EStr Plain "cosmic"));
    (35, SAssign "html_theme_path" (EList [EStr Plain "_theme"]));
    (37, SAssign "html_static_path" (EList [EStr Plain "_static"]));
    (39, SAssign "html_use_smartypants" (EBool true));
    (41, SAssign "html_use_index" (EBool true));
    (43, SAssign "htmlhelp_basename" (EStr Plain "cosmicdoc"));
    (45, SAssign "html_sidebars"
           (EDict [(EStr Plain "index", sidebar_templates);
                   (EStr Plain "**", sidebar_templates)])) ].

(** Loading the module into a namespace seeded by the caller. *)
Definition load (seed : gmap string value) : option (gmap string value) :=
  exec_module seed conf_py.

(** The attribute [x] of the loaded module, as the documentation tool reads
    it. *)
Definition attr (seed : gmap string value) (x : string) : option value :=
  ns ← load seed; ns !! x.

(** The namespace the file builds when nothing is seeded. *)
Definition conf : gmap string value := default ∅ (load ∅).

(** ** Classifying statements *)

(** String, boolean, list and dict literals: displays count when all their
    items do.  [None] and names are not among them. *)
Fixpoint is_literal (e : expr) : bool :=
  match e with
  | EStr _ _ | EBool _ => true
  | ENone | EName _ => false
  | EList es => forallb is_literal es
  | EDict kvs =>
      forallb (fun kv => let '(k, v) := kv in is_literal k && is_literal v) kvs
  end.

Definition literal_assignment (s : stmt) : bool :=
  match s with
  | SAssign _ e => is_literal e
  | _ => false
  end.

(** Statements whose effect does not read the namespace. *)
Definition self_contained (s : stmt) : bool :=
  match s with
  | SImport _ => true
  | SAssign _ e | SExpr e => is_literal e
  end.

(** The assignments to [x], in file order: line and right-hand side. *)
Fixpoint assignments (x : string) (p : module_src) : list (nat * expr) :=
  match p with
  | [] => []
  | (l, SAssign y e) :: rest =>
      if String.eqb y x then (l, e) :: assignments x rest
      else assignments x rest
  | _ :: rest => assignments x rest
  end.

Definition assign_count (x : string) (p : module_src) : nat :=
  length (assignments x p).

(** The assignment targets, in file order. *)
Fixpoint assigned_names (p : module_src) : list string :=
  match p with
  | [] => []
  | (_, SAssign y _) :: rest => y :: assigned_names rest
  | _ :: rest => assigned_names rest
  end.

(** [settles x e s]: the statement [s] either leaves the name [x] alone or
    assigns it the expression [e]. *)
Definition settles (x : string) (e : expr) (s : stmt) : Prop :=
  match s with
  | SImport mods => x ∉ mods
  | SAssign y e' => y = x -> e' = e
  | SExpr _ => True
  end.

(** The attribute namespace as the interface documentation lists it
    (External interfaces: [project], [copyright], [version], [release],
    [extensions], ...). *)
Definition documented_attributes : list string :=
  [ "project"; "copyright"; "version"; "release";
    "extensions";
    "templates_path"; "html_static_path"; "html_theme_path";
    "source_suffix"; "source_encoding"; "master_doc"; "pygments_style";
    "html_theme"; "htmlhelp_basename";
    "exclude_trees";
    "add_function_parentheses"; "html_use_smartypants"; "html_use_index";
    "html_sidebars" ].

(** ** Names a module binds *)

(** The names [import] statements bind, in file order. *)
Fixpoint imported_names (p : module_src) : list string :=
  match p with
  | [] => []
  | (_, SImport mods) :: rest => mods ++ imported_names rest
  | _ :: rest => imported_names rest
  end.

Definition bound_names (p : module_src) : list string :=
  imported_names p ++ assigned_names p.

(** [binds_to x v s]: if the statement [s] binds the name [x] at all, it
    binds it to [v], by an import of [x] or by assigning a literal that
    evaluates to [v]. *)
Definition binds_to (x : string) (v : value) (s : stmt) : Prop :=
  match s with
  | SImport mods => x ∈ mods -> v = VModule x
  | SAssign y e => y = x -> is_literal e = true /\ eval ∅ e = Some v
  | SExpr _ => True
  end.

(** A module is consistent when all the statements that bind a name agree
    on its value. *)
Definition consistent (p : module_src) : Prop :=
  forall x, x ∈ bound_names p ->
    exists v, Forall (fun ls => binds_to x v ls.2) p.

(** Statements that run to completion whatever the namespace holds. *)
Definition runs_alone (s : stmt) : bool :=
  match s with
  | SImport _ => true
  | SAssign _ e | SExpr e =>
      is_literal e && match eval ∅ e with Some _ => true | None => false end
  end.

(** * Properties *)

(** ** Induction over expressions *)

Lemma expr_nested_ind (P : expr -> Prop) :
  (forall p s, P (EStr p s)) ->
  (forall b, P (EBool b)) ->
  P ENone ->
  (forall x, P (EName x)) ->
  (forall es, Forall P es -> P (EList es)) ->
  (forall kvs, Forall (fun kv => P kv.1 /\ P kv.2) kvs -> P (EDict kvs)) ->
  forall e, P e.
Proof.
  intros HStr HBool HNone HName HList HDict.
  fix IH 1. intros [p s|b| |x|es|kvs].
  - apply HStr.
  - apply HBool.
  - apply HNone.
  - apply HName.
  - apply HList. induction es as [|e es IHes]; constructor; [apply IH|apply IHes].
  - apply HDict. induction kvs as [|[k v] kvs IHkvs]; constructor.
    + split; apply IH.
    + apply IHkvs.
Qed.

(** ** A literal evaluates the same in every namespace *)

Lemma eval_items_ext (f g : expr -> option value) es :
  Forall (fun e => f e = g e) es -> eval_items f es = eval_items g es.
Proof.
  induction 1 as [|e es He _ IH]; simpl; [done|]. by rewrite He, IH.
Qed.

Lemma eval_entries_ext (f g : expr -> option value) kvs :
  Forall (fun kv => f kv.1 = g kv.1 /\ f kv.2 = g kv.2) kvs ->
  forall acc, eval_entries f kvs acc = eval_entries g kvs acc.
Proof.
  induction 1 as [|[k v] kvs [Hk Hv] _ IH]; intros acc; simpl in *; [done|].
  rewrite Hk, Hv. destruct (g k) as [kv|]; simpl; [|done].
  destruct (g v) as [vv|]; simpl; [|done].
  destruct (hashable kv); [apply IH|done].
Qed.

Lemma eval_literal ns ns' e :
  is_literal e = true -> eval ns e = eval ns' e.
Proof.
  induction e as [p s|b| |x|es IH|kvs IH] using expr_nested_ind;
    simpl; intros Hlit; try done.
  - rewrite (eval_items_ext (eval ns) (eval ns') es); [done|].
    apply Is_true_eq_left, forallb_True in Hlit.
    rewrite Forall_forall in IH, Hlit |- *. intros e He.
    apply IH; [done|]. by apply Is_true_eq_true, Hlit.
  - rewrite (eval_entries_ext (eval ns) (eval ns') kvs); [done|].
    apply Is_true_eq_left, forallb_True in Hlit.
    rewrite Forall_forall in IH, Hlit |- *. intros [k v] Hkv.
    specialize (IH _ Hkv). specialize (Hlit _ Hkv). simpl in *.
    apply Is_true_eq_true, andb_true_iff in Hlit.
    destruct IH as [IHk IHv], Hlit as [Hk Hv]. auto.
Qed.

(** ** Loading does not depend on the seed *)

Lemma foldl_bind_module_union m seed mods :
  foldl bind_module (m ∪ seed) mods = foldl bind_module m mods ∪ seed.
Proof.
  revert m. induction mods as [|a mods IH]; intros m; simpl; [done|].
  unfold bind_module at 2 4. by rewrite insert_union_l, IH.
Qed.

Lemma exec_stmt_frame m seed s :
  self_contained s = true ->
  exec_stmt (m ∪ seed) s = (fun r => r ∪ seed) <$> exec_stmt m s.
Proof.
  destruct s as [mods|x e|e]; simpl; intros Hs.
  - by rewrite foldl_bind_module_union.
  - rewrite (eval_literal (m ∪ seed) m e Hs).
    destruct (eval m e) as [v|]; simpl; [|done]. by rewrite insert_union_l.
  - rewrite (eval_literal (m ∪ seed) m e Hs).
    by destruct (eval m e).
Qed.

Lemma exec_module_frame seed p :
  Forall (fun ls => self_contained ls.2 = true) p ->
  forall m,
    exec_module (m ∪ seed) p = (fun r => r ∪ seed) <$> exec_module m p.
Proof.
  induction 1 as [|[l s] p Hs _ IH]; intros m; simpl in *; [done|].
  rewrite (exec_stmt_frame m seed s Hs).
  destruct (exec_stmt m s) as [m'|]; simpl; [apply IH|done].
Qed.

Lemma conf_py_self_contained :
  Forall (fun ls => self_contained ls.2 = true) conf_py.
Proof. unfold conf_py. repeat constructor. Qed.

(** Whether loading succeeds is decided by running it; the namespace itself
    is never normalised. *)
Lemma load_empty : load ∅ = Some conf.
Proof.
  assert (match load ∅ with Some _ => true | None => false end = true)
    as Hrun
    by (vm_compute; reflexivity).
  unfold conf. destruct (load ∅) as [ns|]; [reflexivity|discriminate].
Qed.

Lemma load_seed seed : load seed = Some (conf ∪ seed).
Proof.
  unfold load. rewrite <- (left_id_L ∅ (∪) seed) at 1.
  rewrite (exec_module_frame seed conf_py conf_py_self_contained ∅).
  fold (load ∅). by rewrite load_empty.
Qed.

Lemma attr_conf seed x v : conf !! x = Some v -> attr seed x = Some v.
Proof.
  intros Hx. unfold attr. rewrite load_seed. simpl.
  by apply lookup_union_Some_l.
Qed.

(** ** The last assignment decides the value *)

Lemma assign_count_pos_assigned x p :
  0 < assign_count x p -> x ∈ assigned_names p.
Proof.
  unfold assign_count.
  induction p as [|[l [mods|y e|e]] p IH]; simpl; intros Hpos; try lia; auto.
  destruct (String.eqb_spec y x) as [->|Hne].
  - apply elem_of_cons. by left.
  - apply elem_of_cons. right. by apply IH.
Qed.

Lemma foldl_bind_module_other x mods :
  x ∉ mods -> forall ns, foldl bind_module ns mods !! x = ns !! x.
Proof.
  induction mods as [|m mods IH]; intros Hx ns; simpl; [done|].
  apply not_elem_of_cons in Hx as [Hne Hx]. rewrite IH by done.
  unfold bind_module. by rewrite lookup_insert_ne.
Qed.

Lemma exec_module_untouched x e p :
  Forall (fun ls => settles x e ls.2) p ->
  assign_count x p = 0 ->
  forall ns ns', exec_module ns p = Some ns' -> ns' !! x = ns !! x.
Proof.
  unfold assign_count.
  induction 1 as [|[l s] p Hs _ IH]; simpl; intros Hcount ns ns' Hexec.
  - by injection Hexec as <-.
  - destruct (exec_stmt ns s) as [ns1|] eqn:Hstep; simpl in Hexec; [|done].
    destruct s as [mods|y e'|e']; simpl in *.
    + injection Hstep as <-. rewrite (IH Hcount _ _ Hexec).
      by apply foldl_bind_module_other.
    + destruct (String.eqb_spec y x) as [->|Hne]; [done|].
      destruct (eval ns e') as [v|]; simpl in Hstep; [|done].
      injection Hstep as <-. rewrite (IH Hcount _ _ Hexec).
      by rewrite lookup_insert_ne.
    + destruct (eval ns e'); simpl in Hstep; [|done].
      injection Hstep as <-. by apply IH.
Qed.

Lemma exec_module_last_assignment x e p :
  is_literal e = true ->
  Forall (fun ls => settles x e ls.2) p ->
  0 < assign_count x p ->
  forall ns ns', exec_module ns p = Some ns' -> ns' !! x = eval ∅ e.
Proof.
  intros Hlit. induction 1 as [|[l s] p Hs Hp IH]; intros Hpos ns ns' Hexec.
  - unfold assign_count in Hpos. simpl in Hpos. lia.
  - simpl in Hexec.
    destruct (exec_stmt ns s) as [ns1|] eqn:Hstep; simpl in Hexec; [|done].
    destruct (decide (0 < assign_count x p)) as [Hlater|Hnone].
    { by apply (IH Hlater ns1). }
    assert (assign_count x p = 0) as Hzero by lia.
    rewrite (exec_module_untouched x e p Hp Hzero _ _ Hexec).
    unfold assign_count in Hpos, Hzero. simpl in Hs, Hpos.
    destruct s as [mods|y e'|e']; simpl in Hstep; try lia.
    destruct (String.eqb_spec y x) as [->|Hne]; [|lia].
    rewrite (Hs eq_refl) in Hstep.
    rewrite (eval_literal ns ∅ e Hlit) in Hstep.
    destruct (eval ∅ e) as [v|]; simpl in Hstep; [|done].
    injection Hstep as <-. by rewrite lookup_insert_eq.
Qed.

Lemma first_value_final x e v :
  is_literal e = true ->
  Forall (fun ls => settles x e ls.2) conf_py ->
  eval ∅ e = Some v ->
  conf !! x = Some v ->
  forall seed n ns,
    0 < assign_count x (take n conf_py) ->
    exec_module seed (take n conf_py) = Some ns ->
    ns !! x = attr seed x.
Proof.
  intros Hlit Hall Hev Hconf seed n ns Hpos Hexec.
  rewrite (attr_conf seed x v Hconf), <- Hev.
  apply (exec_module_last_assignment x e (take n conf_py) Hlit) in Hexec;
    [done| |done].
  by apply Forall_take.
Qed.

(** Proves [Forall (settles x e) conf_py] for a concrete name [x]. *)
Ltac not_imported :=
  let Hin := fresh "Hin" in
  intros Hin;
  repeat (apply elem_of_cons in Hin as [Hin|Hin]; [discriminate|]);
  by apply elem_of_nil in Hin.

Ltac settle_all :=
  unfold conf_py;
  repeat (apply Forall_cons_2; [simpl; first [done | not_imported] |]);
  apply Forall_nil_2.

(** Closes one attribute's case of the set-once property: the right-hand
    side is read off the first assignment to the attribute. *)
Ltac first_value x :=
  let a := eval vm_compute in (assignments x conf_py) in
  lazymatch a with
  | (_, ?e) :: _ =>
      let r := eval vm_compute in (eval ∅ e) in
      lazymatch r with
      | Some ?v =>
          split; [reflexivity|];
          split; [exists e; vm_compute; repeat constructor|];
          apply (first_value_final x e v);
          [reflexivity | settle_all | reflexivity | vm_compute; reflexivity]
      end
  end.

(** ** The documented attributes *)

(** C1: after the module is loaded, [project] is the string "Cosmic" (it is
    written [u'Cosmic'], which compares equal to the bare string) and
    [version] is the string "0.0.1-SNAPSHOT", whatever the namespace was
    seeded with. *)
Theorem project_and_version seed :
  attr seed "project" = Some (VStr Uni "Cosmic") /\
  key_eqb (VStr Uni "Cosmic") (VStr Plain "Cosmic") = true /\
  attr seed "version" = Some (VStr Plain "0.0.1-SNAPSHOT").
Proof.
  split; [|split].
  - apply attr_conf. vm_compute. reflexivity.
  - reflexivity.
  - apply attr_conf. vm_compute. reflexivity.
Qed.

(** C2, as stated: every statement of the file is an assignment of a
    string, dict, boolean or list literal.  It fails at the first statement,
    [import sys, os] on line 3. *)
Lemma import_is_not_an_assignment :
  ~ Forall (fun ls => literal_assignment ls.2 = true) conf_py.
Proof.
  unfold conf_py. intros Hall. apply Forall_cons_1 in Hall as [Himport _].
  simpl in Himport. discriminate.
Qed.

(** C2, amended: the file starts with the statement [import sys, os] on
    line 3, and each of the 21 statements after it is an assignment whose
    right-hand side is a string, dict, boolean or list literal. *)
Theorem statements_after_import_are_literal_assignments :
  exists rest,
    conf_py = (3, SImport ["sys"; "os"]) :: rest /\
    length rest = 21 /\
    Forall (fun ls => literal_assignment ls.2 = true) rest.
Proof.
  eexists. split; [reflexivity|]. split; [reflexivity|].
  repeat (apply Forall_cons_2; [reflexivity|]). apply Forall_nil_2.
Qed.

(** C3, as stated: every attribute the file assigns is assigned exactly
    once.  It fails for [master_doc], assigned on line 15 and again on
    line 29. *)
Lemma master_doc_is_assigned_twice :
  ~ (forall x, 0 < assign_count x conf_py -> assign_count x conf_py = 1).
Proof.
  intros Honce. specialize (Honce "master_doc"). vm_compute in Honce.
  assert (2 = 1) as Habs by (apply Honce; repeat constructor).
  discriminate.
Qed.

(** C3, amended: every attribute the file assigns is assigned exactly once,
    except [master_doc], which is assigned twice, on lines 15 and 29, both
    times the string 'index'.  All assignments to an attribute have the same
    right-hand side, so from its first assignment on an attribute already
    holds the value it has in the loaded module: no assignment changes it. *)
Theorem set_once_except_master_doc (x : string) :
  0 < assign_count x conf_py ->
  assign_count x conf_py = (if String.eqb x "master_doc" then 2 else 1) /\
  (exists e, Forall (fun le => le.2 = e) (assignments x conf_py)) /\
  forall seed n ns,
    0 < assign_count x (take n conf_py) ->
    exec_module seed (take n conf_py) = Some ns ->
    ns !! x = attr seed x.
Proof.
  intros Hpos. apply assign_count_pos_assigned in Hpos.
  simpl in Hpos. clear -Hpos.
  repeat (apply elem_of_cons in Hpos as [->|Hpos];
          [match goal with |- context [assign_count ?y conf_py] =>
             first_value y end|]).
  by apply elem_of_nil in Hpos.
Qed.

Lemma set_once_except_master_doc_witness :
  0 < assign_count "master_doc" conf_py /\
  assign_count "master_doc" conf_py = 2 /\
  assignments "master_doc" conf_py
    = [(15, EStr Plain "index"); (29, EStr Plain "index")].
Proof.
  assert (0 < assign_count "master_doc" conf_py) as Hpos
    by (vm_compute; lia).
  split; [exact Hpos|].
  split; [exact (proj1 (set_once_except_master_doc "master_doc" Hpos))|].
  reflexivity.
Defined.

(** C4: after loading, [extensions] is a list of strings, and it is
    empty. *)
Theorem extensions_is_empty_list seed :
  exists vs,
    attr seed "extensions" = Some (VList vs) /\
    forallb is_str vs = true /\
    vs = [].
Proof.
  exists []. split; [|done]. apply attr_conf. vm_compute. reflexivity.
Qed.

(** C5: after loading, [html_sidebars] is a dict; every key is a string
    (the page pattern) and every value is a list of strings (the sidebar
    template file names, in order). *)
Theorem html_sidebars_is_mapping seed :
  exists kvs,
    attr seed "html_sidebars" = Some (VDict kvs) /\
    Forall (fun kv => is_str kv.1 = true /\ is_str_list kv.2 = true) kvs.
Proof.
  eexists. split.
  - apply attr_conf. vm_compute. reflexivity.
  - repeat (apply Forall_cons_2; [split; reflexivity|]). apply Forall_nil_2.
Qed.

(** C6: after loading, [add_function_parentheses], [html_use_smartypants]
    and [html_use_index] each hold a boolean. *)
Theorem boolean_attributes seed :
  Forall (fun x => exists b, attr seed x = Some (VBool b))
    ["add_function_parentheses"; "html_use_smartypants"; "html_use_index"].
Proof.
  repeat (apply Forall_cons_2;
          [eexists; apply attr_conf; vm_compute; reflexivity|]).
  apply Forall_nil_2.
Qed.

(** C7: after loading, [templates_path], [html_static_path] and
    [html_theme_path] are each a list whose elements are all strings. *)
Theorem path_attributes seed :
  Forall (fun x => exists vs,
            attr seed x = Some (VList vs) /\ forallb is_str vs = true)
    ["templates_path"; "html_static_path"; "html_theme_path"].
Proof.
  repeat (apply Forall_cons_2;
          [eexists; split;
           [apply attr_conf; vm_compute; reflexivity|reflexivity]|]).
  apply Forall_nil_2.
Qed.

(** C8: after loading, [source_suffix], [source_encoding], [master_doc],
    [pygments_style], [html_theme] and [htmlhelp_basename] each hold a
    string. *)
Theorem string_attributes seed :
  Forall (fun x => exists p s, attr seed x = Some (VStr p s))
    ["source_suffix"; "source_encoding"; "master_doc"; "pygments_style";
     "html_theme"; "htmlhelp_basename"].
Proof.
  repeat (apply Forall_cons_2;
          [do 2 eexists; apply attr_conf; vm_compute; reflexivity|]).
  apply Forall_nil_2.
Qed.

(** C9: after loading, [html_sidebars] has exactly the two entries 'index'
    and '**', and both map to the same ordered list 'globaltoc.html',
    'relations.html', 'sidebarintro.html', 'searchbox.html'. *)
Theorem html_sidebars_entries_equal seed :
  exists kvs,
    attr seed "html_sidebars" = Some (VDict kvs) /\
    length kvs = 2 /\
    dict_get kvs (VStr Plain "index")
      = Some (VList [VStr Plain "globaltoc.html"; VStr Plain "relations.html";
                     VStr Plain "sidebarintro.html";
                     VStr Plain "searchbox.html"]) /\
    dict_get kvs (VStr Plain "**") = dict_get kvs (VStr Plain "index").
Proof.
  eexists. split; [apply attr_conf; vm_compute; reflexivity|].
  split; [reflexivity|]. split; reflexivity.
Qed.

(** C10: after loading, the module has an attribute [needs_sphinx] equal to
    the string '1.1.2', and this name is not among the attributes the
    interface documentation lists. *)
Theorem needs_sphinx_defined_but_undocumented seed :
  attr seed "needs_sphinx" = Some (VStr Plain "1.1.2") /\
  "needs_sphinx" ∉ documented_attributes.
Proof.
  split; [apply attr_conf; vm_compute; reflexivity|].
  unfold documented_attributes. not_imported.
Qed.

(** * Beyond the documented attributes *)

(** ** Which names a module binds *)

Lemma foldl_bind_module_lookup x mods :
  forall ns,
    foldl bind_module ns mods !! x
    = if bool_decide (x ∈ mods) then Some (VModule x) else ns !! x.
Proof.
  induction mods as [|m mods IH]; intros ns; cbn [foldl].
  - case_bool_decide as Hin; [by apply elem_of_nil in Hin|done].
  - rewrite IH. unfold bind_module.
    repeat case_bool_decide; try done.
    + exfalso. match goal with H : x ∉ _ |- _ => apply H end.
      by apply elem_of_cons; right.
    + match goal with H : x ∈ m :: mods |- _ =>
        apply elem_of_cons in H as [->|H]; [|done] end.
      by rewrite lookup_insert_eq.
    + rewrite lookup_insert_ne; [done|]. intros ->.
      match goal with H : x ∉ x :: mods |- _ => apply H end.
      by apply elem_of_cons; left.
Qed.

Lemma exec_module_unbound x p :
  x ∉ bound_names p ->
  forall ns ns', exec_module ns p = Some ns' -> ns' !! x = ns !! x.
Proof.
  unfold bound_names.
  induction p as [|[l s] p IH]; simpl; intros Hx ns ns' Hexec.
  - by injection Hexec as <-.
  - destruct (exec_stmt ns s) as [ns1|] eqn:Hstep; simpl in Hexec; [|done].
    destruct s as [mods|y e|e]; simpl in *.
    + injection Hstep as <-.
      rewrite <- (assoc_L (++)) in Hx.
      apply not_elem_of_app in Hx as [Hmods Hrest].
      rewrite (IH Hrest _ _ Hexec), foldl_bind_module_lookup.
      by rewrite bool_decide_eq_false_2.
    + destruct (eval ns e) as [v|]; simpl in Hstep; [|done].
      injection Hstep as <-.
      rewrite not_elem_of_app, not_elem_of_cons in Hx.
      destruct Hx as [Hi [Hne Ha]].
      assert (x ∉ (imported_names p ++ assigned_names p)%list) as Hrest
        by (by apply not_elem_of_app).
      rewrite (IH Hrest _ _ Hexec). by rewrite lookup_insert_ne.
    + destruct (eval ns e); simpl in Hstep; [|done].
      injection Hstep as <-. by apply IH.
Qed.


(** A name is bound by a module when one of its statements imports or
    assigns it. *)
Lemma bound_names_Exists x p :
  x ∈ bound_names p <->
  Exists (fun ls => match ls.2 with
                    | SImport mods => x ∈ mods
                    | SAssign y _ => y = x
                    | SExpr _ => False
                    end) p.
Proof.
  unfold bound_names.
  induction p as [|[l s] p IH]; simpl.
  - rewrite elem_of_nil, Exists_nil. tauto.
  - rewrite Exists_cons, <- IH. clear IH. destruct s as [mods|y e|e]; simpl.
    + rewrite !elem_of_app. tauto.
    + rewrite !elem_of_app, elem_of_cons. intuition congruence.
    + tauto.
Qed.

Lemma bound_names_Permutation x p p' :
  p' ≡ₚ p -> x ∈ bound_names p' <-> x ∈ bound_names p.
Proof.
  intros Hperm. rewrite !bound_names_Exists, !Exists_exists.
  by setoid_rewrite Hperm.
Qed.

(** ** The value a consistently bound name ends up with *)

Lemma exec_module_bound_value x v p :
  Forall (fun ls => binds_to x v ls.2) p ->
  x ∈ bound_names p ->
  forall ns ns', exec_module ns p = Some ns' -> ns' !! x = Some v.
Proof.
  induction 1 as [|[l s] p Hs Hp IH]; intros Hx ns ns' Hexec.
  - by apply elem_of_nil in Hx.
  - simpl in Hexec.
    destruct (exec_stmt ns s) as [ns1|] eqn:Hstep; simpl in Hexec; [|done].
    destruct (decide (x ∈ bound_names p)) as [Hlater|Hnone].
    { by apply (IH Hlater ns1). }
    rewrite (exec_module_unbound x p Hnone _ _ Hexec).
    apply bound_names_Exists, Exists_cons in Hx as [Hhere|Hrest];
      [|by apply bound_names_Exists in Hrest].
    destruct s as [mods|y e|e]; simpl in *; [| |done].
    + injection Hstep as <-. rewrite foldl_bind_module_lookup.
      rewrite bool_decide_eq_true_2 by done. by rewrite (Hs Hhere).
    + destruct (Hs Hhere) as [Hlit Hev]. subst y.
      rewrite (eval_literal ns ∅ e Hlit), Hev in Hstep. simpl in Hstep.
      injection Hstep as <-. by rewrite lookup_insert_eq.
Qed.

(** ** Modules that cannot fail *)

Lemma exec_module_runs p :
  Forall (fun ls => runs_alone ls.2 = true) p ->
  forall ns, is_Some (exec_module ns p).
Proof.
  induction 1 as [|[l s] p Hs _ IH]; intros ns; simpl in *; [by eexists|].
  destruct s as [mods|y e|e]; simpl in *; [apply IH| |];
    apply andb_true_iff in Hs as [Hlit Hev];
    rewrite (eval_literal ns ∅ e Hlit);
    destruct (eval ∅ e) as [v|]; try done; simpl; apply IH.
Qed.

(** ** Statement order *)

Lemma exec_module_Permutation p p' :
  p' ≡ₚ p ->
  Forall (fun ls => runs_alone ls.2 = true) p ->
  consistent p ->
  forall ns, exec_module ns p' = exec_module ns p.
Proof.
  intros Hperm Hruns Hcons ns.
  assert (Forall (fun ls => runs_alone ls.2 = true) p') as Hruns'
    by (by rewrite Hperm).
  destruct (exec_module_runs p Hruns ns) as [m Hm].
  destruct (exec_module_runs p' Hruns' ns) as [m' Hm'].
  rewrite Hm, Hm'. f_equal. apply map_eq. intros x.
  destruct (decide (x ∈ bound_names p)) as [Hin|Hout].
  - destruct (Hcons x Hin) as [v Hall].
    rewrite (exec_module_bound_value x v p Hall Hin _ _ Hm).
    assert (Forall (fun ls => binds_to x v ls.2) p') as Hall'
      by (by rewrite Hperm).
    apply (exec_module_bound_value x v p' Hall'
             (proj2 (bound_names_Permutation x p p' Hperm) Hin) ns m' Hm').
  - rewrite (exec_module_unbound x p Hout _ _ Hm).
    apply (exec_module_unbound x p'); [|done].
    by rewrite (bound_names_Permutation x p p' Hperm).
Qed.

Lemma conf_py_runs_alone :
  Forall (fun ls => runs_alone ls.2 = true) conf_py.
Proof.
  unfold conf_py.
  repeat (apply Forall_cons_2; [vm_compute; reflexivity|]).
  apply Forall_nil_2.
Qed.

(** Proves [binds_to x v s] for concrete [x], [v] and [s]. *)
Ltac binds_to_concrete :=
  let H := fresh "H" in
  simpl; intros H;
  first [ discriminate H
        | split; reflexivity
        | reflexivity
        | exfalso; revert H; not_imported ].

Ltac consistent_at x :=
  let r := eval vm_compute in (conf !! x) in
  lazymatch r with
  | Some ?v =>
      exists v; unfold conf_py;
      repeat (apply Forall_cons_2; [first [exact I | binds_to_concrete]|]);
      apply Forall_nil_2
  end.

Lemma conf_py_consistent : consistent conf_py.
Proof.
  intros x Hx. vm_compute bound_names in Hx.
  repeat (apply elem_of_cons in Hx as [->|Hx];
          [match goal with
           |- exists v, Forall (fun ls => binds_to ?y v ls.2) _ =>
             consistent_at y end|]).
  by apply elem_of_nil in Hx.
Qed.

(** ** Loading from a seeded namespace *)


Lemma conf_bound_value x v :
  Forall (fun ls => binds_to x v ls.2) conf_py ->
  x ∈ bound_names conf_py ->
  forall seed, attr seed x = Some v.
Proof.
  intros Hall Hx seed. unfold attr.
  destruct (exec_module_runs conf_py conf_py_runs_alone seed) as [ns Hns].
  unfold load. rewrite Hns. simpl.
  by apply (exec_module_bound_value x v conf_py Hall Hx seed).
Qed.




(** X3: loading the file again into the namespace it produced changes
    nothing. *)
Theorem reload_is_idempotent seed :
  (ns ← load seed; load ns) = load seed.
Proof.
  rewrite load_seed. simpl. rewrite load_seed.
  by rewrite (assoc_L (∪)), (idemp_L (∪) conf).
Qed.


(** ** Attributes outside the documented checks *)

(** X5: after loading, [release] holds the same string as [version],
    '0.0.1-SNAPSHOT'. *)
Theorem release_matches_version seed :
  attr seed "release" = attr seed "version" /\
  attr seed "release" = Some (VStr Plain "0.0.1-SNAPSHOT").
Proof.
  assert (attr seed "release" = Some (VStr Plain "0.0.1-SNAPSHOT")) as Hr
    by (apply attr_conf; vm_compute; reflexivity).
  split; [|done]. rewrite Hr. symmetry.
  apply attr_conf. vm_compute. reflexivity.
Qed.

(** X6: after loading, [copyright] is the string u'2012, Ning' and
    [exclude_trees] is the one-element list ['.build']. *)
Theorem copyright_and_exclude_trees seed :
  attr seed "copyright" = Some (VStr Uni "2012, Ning") /\
  attr seed "exclude_trees" = Some (VList [VStr Plain ".build"]).
Proof.
  split; apply attr_conf; vm_compute; reflexivity.
Qed.

(** X7: [import sys, os] leaves the names [sys] and [os] bound to the
    module objects in the loaded namespace, replacing anything seeded under
    these names; they are the only imported names and no later statement
    assigns them. *)
Theorem imports_bind_modules seed :
  imported_names conf_py = ["sys"; "os"] /\
  Forall (fun m => attr seed m = Some (VModule m)
                   /\ assign_count m conf_py = 0)
    (imported_names conf_py).
Proof.
  split; [reflexivity|]. simpl.
  repeat (apply Forall_cons_2;
          [split; [apply attr_conf; vm_compute; reflexivity|reflexivity]|]).
  apply Forall_nil_2.
Qed.

(** ** Independence of the statements *)

(** X8: the statements of the file can be put in any order: every
    rearrangement loads, from any seed, to the namespace the file itself
    loads to. *)
Theorem statement_order_is_irrelevant seed p' :
  p' ≡ₚ conf_py -> exec_module seed p' = load seed.
Proof.
  intros Hperm. unfold load.
  apply exec_module_Permutation;
    [done|apply conf_py_runs_alone|apply conf_py_consistent].
Qed.

Lemma statement_order_is_irrelevant_witness :
  reverse conf_py ≡ₚ conf_py /\
  exec_module ∅ (reverse conf_py) = load ∅.
Proof.
  assert (reverse conf_py ≡ₚ conf_py) as Hperm by apply reverse_Permutation.
  split; [exact Hperm|].
  exact (statement_order_is_irrelevant ∅ (reverse conf_py) Hperm).
Defined.

(** X9: statements can be left out: any selection of the file's statements
    (in any order) still loads from any seed, and every name the selection
    binds gets the value it has in the full module. *)
Theorem dropping_statements_keeps_values seed p' x :
  p' ⊆+ conf_py ->
  x ∈ bound_names p' ->
  exists ns, exec_module seed p' = Some ns /\ ns !! x = attr seed x.
Proof.
  intros Hsub Hx.
  destruct (submseteq_Permutation _ _ Hsub) as [k Hperm].
  assert (x ∈ bound_names conf_py) as Hx'.
  { apply (bound_names_Permutation x (p' ++ k) conf_py Hperm).
    apply bound_names_Exists, Exists_app. left.
    by apply bound_names_Exists. }
  destruct (conf_py_consistent x Hx') as [v Hall].
  assert (Forall (fun ls => binds_to x v ls.2) p') as Hall'.
  { rewrite Hperm in Hall. by apply Forall_app in Hall as [Hp' _]. }
  assert (Forall (fun ls => runs_alone ls.2 = true) p') as Hruns.
  { pose proof conf_py_runs_alone as Hr. rewrite Hperm in Hr.
    by apply Forall_app in Hr as [Hp' _]. }
  destruct (exec_module_runs p' Hruns seed) as [ns Hns].
  exists ns. split; [done|].
  rewrite (conf_bound_value x v Hall Hx' seed).
  by apply (exec_module_bound_value x v p' Hall' Hx seed).
Qed.

Lemma dropping_statements_keeps_values_witness :
  [(29, SAssign "master_doc" (EStr Plain "index"));
   (17, SAssign "project" (EStr Uni "Cosmic"))] ⊆+ conf_py /\
  "project" ∈ bound_names
    [(29, SAssign "master_doc" (EStr Plain "index"));
     (17, SAssign "project" (EStr Uni "Cosmic"))] /\
  exists ns,
    exec_module ∅
      [(29, SAssign "master_doc" (EStr Plain "index"));
       (17, SAssign "project" (EStr Uni "Cosmic"))] = Some ns /\
    ns !! "project" = attr ∅ "project".
Proof.
  set (p' := [(29, SAssign "master_doc" (EStr Plain "index"));
              (17, SAssign "project" (EStr Uni "Cosmic"))]).
  assert (p' ⊆+ conf_py) as Hsub.
  { unfold p', conf_py.
    apply (submseteq_trans _
             [(17, SAssign "project" (EStr Uni "Cosmic"));
              (29, SAssign "master_doc" (EStr Plain "index"))]).
    - apply Permutation_submseteq, perm_swap.
    - apply sublist_submseteq.
      repeat first [apply sublist_nil | apply sublist_skip | apply sublist_cons]. }
  assert ("project" ∈ bound_names p') as Hx.
  { vm_compute bound_names. apply elem_of_cons. right.
    apply elem_of_cons. by left. }
  split; [exact Hsub|]. split; [exact Hx|].
  exact (dropping_statements_keeps_values ∅ p' "project" Hsub Hx).
Defined.

(** ** The settings' values *)

(** X10: the values of the string, boolean and path settings after loading,
    from any seed: the source suffix, encoding and root document, the
    highlighting style, the HTML theme and where it is looked up, the
    template and static directories, the three switches (all on) and the
    help file base name. *)
Theorem setting_values seed :
  Forall (fun xv => attr seed xv.1 = Some xv.2)
    [ ("templates_path", VList [VStr Plain "_templates"]);
      ("source_suffix", VStr Plain ".rst");
      ("source_encoding", VStr Plain "utf-8-sig");
      ("master_doc", VStr Plain "index");
      ("add_function_parentheses", VBool true);
      ("pygments_style", VStr Plain "trac");
      ("html_theme", VStr Plain "cosmic");
      ("html_theme_path", VList [VStr Plain "_theme"]);
      ("html_static_path", VList [VStr Plain "_static"]);
      ("html_use_smartypants", VBool true);
      ("html_use_index", VBool true);
      ("htmlhelp_basename", VStr Plain "cosmicdoc") ].
Proof.
  repeat (apply Forall_cons_2;
          [apply attr_conf; vm_compute; reflexivity|]).
  apply Forall_nil_2.
Qed.
